(** * mkboot.py: the eGON.BT0 boot image builder for the F1C100S

    A shallow embedding of [src/mkboot.py] and the properties of the
    image it writes.  Python integers are [Z]; [bytes] and [bytearray]
    values are [list byte]; the file system and standard output are an
    explicit world threaded through a small exception-and-state monad. *)

From Stdlib Require Import ZArith Lia List.
From Stdlib Require Import Strings.Byte Strings.String Strings.Ascii.
From stdpp Require Import base list gmap strings pretty.

Local Open Scope Z_scope.

(** ** Python values and exceptions *)

Module Py.

(** The exceptions the script can raise. *)
Inductive exn : Type :=
  | SystemExit (status : Z)
  | OSError (path : string)
  | StructError
  | IndexError.

(** A computation that returns a value or raises. *)
Inductive result (A : Type) : Type :=
  | Ok (a : A)
  | Raise (e : exn).
Arguments Ok {A} a.
Arguments Raise {A} e.

#[export] Instance result_ret : MRet result := fun A a => Ok a.
#[export] Instance result_bind : MBind result := fun A B f m =>
  match m with
  | Ok a => f a
  | Raise e => Raise e
  end.

Definition bytes : Type := list byte.

Definition byte_to_Z (b : byte) : Z := Z.of_N (Byte.to_N b).

(** The byte whose value is [z mod 256]. *)
Definition byte_of_Z (z : Z) : byte :=
  match Byte.of_N (Z.to_N (z mod 256)) with
  | Some b => b
  | None => x00
  end.

(** [b * n] on a one-byte [bytes] literal: [n] copies, none when [n <= 0]. *)
Definition bytes_mul (b : byte) (n : Z) : bytes := replicate (Z.to_nat n) b.

(** [bytearray(n)]: [n] zero bytes. *)
Definition bytearray (n : Z) : bytes := replicate (Z.to_nat n) x00.

(** [len(b)] as a Python integer. *)
Definition len {A : Type} (l : list A) : Z := Z.of_nat (length l).

(** [l[lo:hi]] for non-negative bounds: clamped to the sequence, never
    raising. *)
Definition slice {A : Type} (l : list A) (lo hi : nat) : list A :=
  take (hi - lo) (drop lo l).

(** [l[lo:hi] = v] on a bytearray: the slice is replaced by [v], whatever
    the length of [v] (the bytearray is resized when they differ). *)
Definition set_slice {A : Type} (l : list A) (lo hi : nat) (v : list A) : list A :=
  take lo l ++ v ++ drop (Nat.max lo hi) l.

(** [range(start, stop, step)] for a positive step. *)
Definition range (start stop step : nat) : list nat :=
  (fun k => (start + k * step)%nat) <$> seq 0 (Nat.div (stop - start + (step - 1)) step).

(** [struct.pack('<I', v)]: four bytes, least significant first;
    [struct.error] when [v] does not fit 32 unsigned bits. *)
Definition struct_pack_I (v : Z) : result bytes :=
  if decide (0 <= v <= 0xFFFFFFFF)
  then Ok [ byte_of_Z v; byte_of_Z (v / 2^8);
            byte_of_Z (v / 2^16); byte_of_Z (v / 2^24) ]
  else Raise StructError.

(** [struct.unpack('<I', b)[0]]: [struct.error] unless [b] has exactly
    four bytes. *)
Definition struct_unpack_I (b : bytes) : result Z :=
  match b with
  | [b0; b1; b2; b3] =>
      Ok (byte_to_Z b0 + byte_to_Z b1 * 2^8
          + byte_to_Z b2 * 2^16 + byte_to_Z b3 * 2^24)
  | _ => Raise StructError
  end.

(** *** Number formatting of f-strings *)

Definition hex_digit (n : N) : ascii :=
  match String.get (N.to_nat n) "0123456789ABCDEF" with
  | Some c => c
  | None => "0"%char
  end.

Fixpoint hex_upper_go (fuel : nat) (n : N) (acc : string) : string :=
  match fuel with
  | O => acc
  | S fuel' =>
      let acc' := String (hex_digit (n mod 16)%N) acc in
      if (n / 16 =? 0)%N then acc' else hex_upper_go fuel' (n / 16)%N acc'
  end.

Fixpoint zeros (n : nat) : string :=
  match n with
  | O => EmptyString
  | S n' => String "0"%char (zeros n')
  end.

(** [f"{n:0wX}"] for [n >= 0]: upper-case hexadecimal, zero-padded on the
    left to at least [w] characters. *)
Definition format_0X (w : nat) (n : Z) : string :=
  let digits := hex_upper_go (S (N.to_nat (N.log2 (Z.to_N n)))) (Z.to_N n) EmptyString in
  (zeros (w - String.length digits) +:+ digits)%string.

(** [f"{n}"] on an integer. *)
Definition format_d (n : Z) : string := pretty n.

End Py.

(** ** The process environment: files, standard output, and [open] calls *)

Module Sys.
Import Py.

(** How a file is opened: ['rb'] or ['wb']. *)
Inductive mode : Type := RB | WB.

Record world : Type := World {
  files : gmap string bytes;      (* the readable files and their contents *)
  readonly : gset string;         (* paths [open(_, 'wb')] fails on *)
  stdout : list string;           (* the lines printed so far *)
  opens : list (string * mode);   (* every [open] call made so far *)
}.

(** A Python statement sequence: it changes the world and returns or
    raises; what was printed or written before a raise stays. *)
Definition IO (A : Type) : Type := world -> world * result A.

#[export] Instance IO_ret : MRet IO := fun A a w => (w, Ok a).
#[export] Instance IO_bind : MBind IO := fun A B f m w =>
  match m w with
  | (w', Ok a) => f a w'
  | (w', Raise e) => (w', Raise e)
  end.

(** A pure computation inside a statement sequence. *)
Definition lift {A : Type} (r : result A) : IO A := fun w => (w, r).

Definition log_open (path : string) (m : mode) (w : world) : world :=
  World (files w) (readonly w) (stdout w) (opens w ++ [(path, m)]).

(** [with open(path, 'rb') as f: f.read()]. *)
Definition read_file (path : string) : IO bytes := fun w =>
  let w' := log_open path RB w in
  match files w !! path with
  | Some data => (w', Ok data)
  | None => (w', Raise (OSError path))
  end.

(** [with open(path, 'wb') as f: f.write(data)]. *)
Definition write_file (path : string) (data : bytes) : IO unit := fun w =>
  let w' := log_open path WB w in
  if decide (path ∈ readonly w)
  then (w', Raise (OSError path))
  else (World (<[path := data]> (files w')) (readonly w') (stdout w') (opens w'), Ok tt).

(** [print(line)]. *)
Definition print (line : string) : IO unit := fun w =>
  (World (files w) (readonly w) (stdout w ++ [line]) (opens w), Ok tt).

(** [sys.exit(status)]. *)
Definition sys_exit {A : Type} (status : Z) : IO A :=
  lift (Raise (SystemExit status)).

(** [argv[i]]. *)
Definition index (argv : list string) (i : nat) : result string :=
  match argv !! i with
  | Some s => Ok s
  | None => Raise IndexError
  end.

(** The exit status of the interpreter: 0 on normal completion, the
    argument of [sys.exit], and 1 on any other uncaught exception. *)
Definition exit_status {A : Type} (r : result A) : Z :=
  match r with
  | Ok _ => 0
  | Raise (SystemExit status) => status
  | Raise _ => 1
  end.

End Sys.

(** ** The script *)

Module Mkboot.
Import Py Sys.

Definition HEADER_SIZE : Z := 32.
Definition CODE_START_OFFSET : Z := 0x30.

Definition padding_size : Z := CODE_START_OFFSET - HEADER_SIZE.
Definition total_size (code : bytes) : Z := CODE_START_OFFSET + len code.
Definition aligned_size (code : bytes) : Z :=
  Z.land (total_size code + 511) (Z.lnot 511).
Definition tail_padding (code : bytes) : Z := aligned_size code - total_size code.

Definition jump_offset : Z := CODE_START_OFFSET / 4 - 2.
Definition reset_vector : Z := Z.lor 0xEA000000 (Z.land jump_offset 0x00FFFFFF).

(** Lines 37-56: the 32-byte header, the checksum field holding the
    placeholder 0x5F0A6C39. *)
Definition header (code : bytes) : result bytes :=
  let header := bytearray HEADER_SIZE in
  w ← struct_pack_I reset_vector;
  let header := set_slice header 0 4 w in
  let header := set_slice header 4 12 (list_byte_of_string "eGON.BT0") in
  w ← struct_pack_I 0x5F0A6C39;
  let header := set_slice header 12 16 w in
  w ← struct_pack_I (aligned_size code);
  let header := set_slice header 16 20 w in
  w ← struct_pack_I HEADER_SIZE;
  let header := set_slice header 20 24 w in
  mret header.

Definition padding : bytes := bytes_mul xff padding_size.
Definition tail (code : bytes) : bytes := bytes_mul x00 (tail_padding code).

(** Line 64: the assembled image, before the checksum is written back. *)
Definition image (code : bytes) : result bytes :=
  header ← header code;
  mret (header ++ padding ++ code ++ tail code).

(** Lines 69-71: the body of the loop, for the indices still to visit. *)
Fixpoint checksum_loop (image : bytes) (indices : list nat) (checksum : Z) : result Z :=
  match indices with
  | [] => mret checksum
  | i :: indices' =>
      word ← struct_unpack_I (slice image i (i + 4));
      checksum_loop image indices' (checksum + word)
  end.

(** Lines 68-72: the sum of the image's 32-bit words, modulo 2^32. *)
Definition checksum (image : bytes) : result Z :=
  checksum ← checksum_loop image (range 0 (length image) 4) 0;
  mret (Z.land checksum 0xFFFFFFFF).

(** Lines 75-76: the checksum written back over the placeholder. *)
Definition patch (image : bytes) (checksum : Z) : result bytes :=
  w ← struct_pack_I checksum;
  mret (set_slice image 12 16 w).

(** Lines 26-76: from the bytes read to the bytes written, with the
    checksum printed afterwards. *)
Definition build (code : bytes) : result (bytes * Z) :=
  image ← image code;
  checksum ← checksum image;
  image ← patch image checksum;
  mret (image, checksum).

(** Lines 81-85: the summary printed after the file is written. *)
Definition summary (output_file : string) (code image : bytes) (checksum : Z) : list string :=
  [ "Created " +:+ output_file;
    "  Code size: " +:+ format_d (len code) +:+ " bytes";
    "  Total size: " +:+ format_d (len image) +:+ " bytes (aligned to 512)";
    "  Code starts at: 0x" +:+ format_0X 2 CODE_START_OFFSET;
    "  Checksum: 0x" +:+ format_0X 8 checksum ]%string.

Definition make_boot0 (bin_file output_file : string) : IO unit :=
  code ← read_file bin_file;
  '(image, checksum) ← lift (build code);
  _ ← write_file output_file image;
  _ ← print ("Created " +:+ output_file);
  _ ← print ("  Code size: " +:+ format_d (len code) +:+ " bytes");
  _ ← print ("  Total size: " +:+ format_d (len image) +:+ " bytes (aligned to 512)");
  _ ← print ("  Code starts at: 0x" +:+ format_0X 2 CODE_START_OFFSET);
  print ("  Checksum: 0x" +:+ format_0X 8 checksum).

(** Lines 89-92: the usage message. *)
Definition usage (script : string) : list string :=
  [ "Usage: " +:+ script +:+ " <input.bin> <output.bin>";
    "";
    "Creates a bootable image for F1C100S SPI flash or SD card";
    "by adding an eGON.BT0 header to the input binary." ]%string.

(** Lines 87-95: the script run as [__main__] with [sys.argv = argv]. *)
Definition main (argv : list string) : IO unit :=
  if decide (len argv ≠ 3)
  then
    script ← lift (index argv 0);
    _ ← print ("Usage: " +:+ script +:+ " <input.bin> <output.bin>");
    _ ← print "";
    _ ← print "Creates a bootable image for F1C100S SPI flash or SD card";
    _ ← print "by adding an eGON.BT0 header to the input binary.";
    sys_exit 1
  else
    bin_file ← lift (index argv 1);
    output_file ← lift (index argv 2);
    make_boot0 bin_file output_file.

(** The process: the world it leaves and its exit status. *)
Definition run (argv : list string) (w : world) : world * Z :=
  let '(w', r) := main argv w in (w', exit_status r).

End Mkboot.

(** ** The file format, as the format table describes it *)

Module Format.
Import Py Mkboot.

(** A 32-bit field: four bytes, least significant first. *)
Definition le32 (v : Z) : bytes :=
  [ byte_of_Z v; byte_of_Z (v / 2^8); byte_of_Z (v / 2^16); byte_of_Z (v / 2^24) ].

(** Offsets 0x00-0x1F: reset vector, magic, checksum field, total
    length, header length, reserved zeros. *)
Definition header_bytes (code : bytes) (checksum_field : Z) : bytes :=
  [ x0a; x00; x00; xea ] ++ list_byte_of_string "eGON.BT0"
  ++ le32 checksum_field ++ le32 (aligned_size code)
  ++ [ x20; x00; x00; x00 ] ++ replicate 8 x00.

(** The whole file: header, 16 fill bytes, the code, zeros up to the
    aligned size. *)
Definition image_bytes (code : bytes) (checksum_field : Z) : bytes :=
  header_bytes code checksum_field ++ replicate 16 xff ++ code
  ++ replicate (Z.to_nat (aligned_size code - 0x30 - len code)) x00.

(** A byte sequence read as little-endian 32-bit words, four bytes at a
    time; fewer than four trailing bytes form no word. *)
Fixpoint le_words (b : bytes) : list Z :=
  match b with
  | b0 :: b1 :: b2 :: b3 :: rest =>
      (byte_to_Z b0 + byte_to_Z b1 * 2^8 + byte_to_Z b2 * 2^16 + byte_to_Z b3 * 2^24)
      :: le_words rest
  | _ => []
  end.

(** The sum of the words, modulo 2^32. *)
Definition word_sum (b : bytes) : Z := foldr Z.add 0 (le_words b) mod 2^32.

End Format.

(** ** Sample runs *)

Module Samples.
Import Py Sys Mkboot.

(** A one-byte program, and what the builder makes of it. *)
Definition sample_code : bytes := [x11].

Definition sample_image : bytes :=
  Eval vm_compute in match image sample_code with Ok img => img | Raise _ => [] end.

Definition sample_out : bytes :=
  Eval vm_compute in match build sample_code with Ok (out, _) => out | Raise _ => [] end.

Definition sample_checksum : Z :=
  Eval vm_compute in match build sample_code with Ok (_, c) => c | Raise _ => 0 end.

(** Two unrelated machines that hold the same program under different
    names. *)
Definition sample_world : world :=
  World {[ "in.bin"%string := sample_code ]} ∅ [] [].

Definition sample_world' : world :=
  World {[ "fw/app.bin"%string := sample_code; "notes.txt"%string := [x68; x69] ]}
        {[ "notes.txt"%string ]} ["make: entering directory"%string] [].

End Samples.

(** ** Bytes and [struct] *)

Module PyFacts.
Import Py.

Lemma bind_Ok {A B : Type} (a : A) (f : A -> result B) : (Ok a ≫= f) = f a.
Proof. reflexivity. Qed.

Lemma byte_to_Z_range (b : byte) : 0 <= byte_to_Z b < 256.
Proof.
  unfold byte_to_Z. pose proof (Byte.to_N_bounded b). lia.
Qed.

Lemma byte_to_of_Z (z : Z) : byte_to_Z (byte_of_Z z) = z mod 256.
Proof.
  unfold byte_to_Z, byte_of_Z.
  pose proof (Z.mod_pos_bound z 256 ltac:(lia)) as Hm.
  destruct (Byte.of_N (Z.to_N (z mod 256))) as [b|] eqn:E.
  - apply Byte.to_of_N in E. rewrite E. lia.
  - apply Byte.of_N_None_iff in E. lia.
Qed.

Lemma byte_of_to_Z (b : byte) : byte_of_Z (byte_to_Z b) = b.
Proof.
  unfold byte_of_Z. pose proof (byte_to_Z_range b) as Hr.
  rewrite Z.mod_small by lia. unfold byte_to_Z.
  rewrite N2Z.id, Byte.of_to_N. reflexivity.
Qed.

Lemma struct_pack_I_Ok (v : Z) :
  0 <= v <= 0xFFFFFFFF ->
  struct_pack_I v = Ok [ byte_of_Z v; byte_of_Z (v / 2^8);
                         byte_of_Z (v / 2^16); byte_of_Z (v / 2^24) ].
Proof. intros Hv. unfold struct_pack_I. rewrite decide_True; done. Qed.

Lemma struct_pack_I_Raise (v : Z) :
  ¬ (0 <= v <= 0xFFFFFFFF) -> struct_pack_I v = Raise StructError.
Proof. intros Hv. unfold struct_pack_I. rewrite decide_False; done. Qed.

Lemma struct_pack_I_inv (v : Z) (w : bytes) :
  struct_pack_I v = Ok w ->
  0 <= v <= 0xFFFFFFFF /\
  w = [ byte_of_Z v; byte_of_Z (v / 2^8); byte_of_Z (v / 2^16); byte_of_Z (v / 2^24) ].
Proof.
  unfold struct_pack_I. case_decide; [|discriminate].
  intros [= <-]. done.
Qed.

(** Unpacking what was packed gives the number back. *)
Lemma struct_unpack_pack (v : Z) (w : bytes) :
  struct_pack_I v = Ok w -> struct_unpack_I w = Ok v.
Proof.
  intros [Hv ->]%struct_pack_I_inv. cbn [struct_unpack_I].
  rewrite !byte_to_of_Z. f_equal.
  change (2^8) with 256. change (2^16) with 65536. change (2^24) with 16777216.
  Z.to_euclidean_division_equations. lia.
Qed.

(** Only four bytes unpack. *)
Lemma struct_unpack_I_Ok (b : bytes) :
  length b = 4%nat -> exists word, struct_unpack_I b = Ok word /\ 0 <= word <= 0xFFFFFFFF.
Proof.
  intros Hb. destruct b as [|b0 [|b1 [|b2 [|b3 [|]]]]]; try discriminate.
  eexists. split; [reflexivity|].
  pose proof (byte_to_Z_range b0). pose proof (byte_to_Z_range b1).
  pose proof (byte_to_Z_range b2). pose proof (byte_to_Z_range b3). lia.
Qed.

Lemma struct_unpack_I_Raise (b : bytes) :
  length b ≠ 4%nat -> struct_unpack_I b = Raise StructError.
Proof.
  intros Hb. destruct b as [|b0 [|b1 [|b2 [|b3 [|]]]]]; try reflexivity.
  by destruct Hb.
Qed.

End PyFacts.

(** ** Slices and ranges *)

Module SliceFacts.
Import Py.

Section Slices.
Context {A : Type}.
Implicit Types (l v : list A) (lo hi i : nat).

Lemma length_slice l lo hi :
  (hi <= length l)%nat -> length (slice l lo hi) = (hi - lo)%nat.
Proof. intros H. unfold slice. rewrite length_take, length_drop. lia. Qed.

Lemma slice_lookup l lo hi i :
  (i < hi - lo)%nat -> slice l lo hi !! i = l !! (lo + i)%nat.
Proof. intros H. unfold slice. rewrite lookup_take_lt by done. apply lookup_drop. Qed.

Lemma length_set_slice l lo hi v :
  (lo <= hi <= length l)%nat -> length v = (hi - lo)%nat ->
  length (set_slice l lo hi v) = length l.
Proof.
  intros H Hv. unfold set_slice.
  rewrite !length_app, length_take, length_drop. lia.
Qed.

Lemma set_slice_lookup_lt l lo hi v i :
  (lo <= length l)%nat -> (i < lo)%nat -> set_slice l lo hi v !! i = l !! i.
Proof.
  intros Hl Hi. unfold set_slice.
  rewrite lookup_app_l by (rewrite length_take; lia).
  by rewrite lookup_take_lt.
Qed.

Lemma set_slice_lookup_ge l lo hi v i :
  (lo <= hi <= length l)%nat -> length v = (hi - lo)%nat -> (hi <= i)%nat ->
  set_slice l lo hi v !! i = l !! i.
Proof.
  intros Hl Hv Hi. unfold set_slice.
  rewrite lookup_app_r by (rewrite length_take; lia).
  rewrite lookup_app_r by (rewrite length_take; lia).
  rewrite lookup_drop, length_take. f_equal. lia.
Qed.

Lemma slice_set_slice l lo hi v :
  (lo <= length l)%nat -> length v = (hi - lo)%nat ->
  slice (set_slice l lo hi v) lo hi = v.
Proof.
  intros Hl Hv. unfold slice, set_slice.
  rewrite drop_app_length' by (rewrite length_take; lia).
  rewrite take_app_length' by done. done.
Qed.

Lemma set_slice_set_slice l lo hi v v' :
  (lo <= hi <= length l)%nat -> length v = (hi - lo)%nat ->
  set_slice (set_slice l lo hi v) lo hi v' = set_slice l lo hi v'.
Proof.
  intros Hl Hv. unfold set_slice.
  rewrite take_app_length' by (rewrite length_take; lia).
  do 2 f_equal.
  rewrite drop_app_ge by (rewrite length_take; lia).
  rewrite drop_app_ge by (rewrite length_take; lia).
  rewrite drop_drop, length_take. f_equal. lia.
Qed.

Lemma set_slice_slice l lo hi :
  (lo <= hi)%nat -> set_slice l lo hi (slice l lo hi) = l.
Proof.
  intros H. unfold set_slice, slice.
  rewrite Nat.max_r by done.
  replace hi with (lo + (hi - lo))%nat at 2 by lia.
  rewrite <- drop_drop, (take_drop (hi - lo)). apply take_drop.
Qed.

End Slices.

Lemma range_0_4 (k : nat) :
  range 0 (4 * k) 4 = (fun j => (4 * j)%nat) <$> seq 0 k.
Proof.
  unfold range.
  replace ((4 * k - 0 + (4 - 1)) `div` 4)%nat with k.
  - apply list_fmap_ext. intros _ j _. lia.
  - apply Nat.div_unique with (r := 3%nat); lia.
Qed.

Lemma elem_of_range (start stop step i : nat) :
  (0 < step)%nat ->
  i ∈ range start stop step <->
  exists k, i = (start + k * step)%nat /\ (i < stop)%nat.
Proof.
  intros Hs. unfold range. rewrite list_elem_of_fmap.
  set (n := ((stop - start + (step - 1)) `div` step)%nat).
  assert (Hn : forall k, (k < n)%nat <-> (start + k * step < stop)%nat).
  { intros k. subst n. split.
    - intros Hk.
      assert (S k * step <= stop - start + (step - 1))%nat; [|lia].
      etrans; [|apply (Nat.Div0.mul_div_le _ step)].
      rewrite (Nat.mul_comm step). apply Nat.mul_le_mono_r. lia.
    - intros Hk. apply (Nat.div_le_lower_bound _ step (S k)); [lia|]. nia. }
  split.
  - intros (k & -> & Hk%elem_of_seq). exists k. split; [done|]. apply Hn. lia.
  - intros (k & -> & Hk). exists k. split; [done|]. apply elem_of_seq.
    apply Hn in Hk. lia.
Qed.

End SliceFacts.

(** ** The layout: sizes, header and assembled image *)

Module Layout.
Import Py Sys Mkboot Format PyFacts SliceFacts.

(** The mask [& ~511] rounds down to a multiple of 512. *)
Lemma land_lnot_511 (n : Z) : Z.land n (Z.lnot 511) = 512 * (n / 512).
Proof.
  rewrite <- Z.ldiff_land. change 511 with (Z.ones 9).
  rewrite Z.ldiff_ones_r by lia.
  rewrite Z.shiftl_mul_pow2, Z.shiftr_div_pow2 by lia.
  change (2 ^ 9) with 512. lia.
Qed.

Lemma total_size_pos (code : bytes) : 48 <= total_size code.
Proof. unfold total_size, CODE_START_OFFSET, len. lia. Qed.

Lemma aligned_size_eq (code : bytes) :
  aligned_size code = 512 * ((total_size code + 511) / 512).
Proof. unfold aligned_size. apply land_lnot_511. Qed.

Lemma aligned_size_bounds (code : bytes) :
  total_size code <= aligned_size code < total_size code + 512.
Proof.
  rewrite aligned_size_eq. Z.to_euclidean_division_equations. lia.
Qed.

Lemma aligned_size_mod (code : bytes) : aligned_size code mod 512 = 0.
Proof.
  rewrite aligned_size_eq, Z.mul_comm. apply Z.mod_mul. lia.
Qed.

Lemma tail_padding_bounds (code : bytes) : 0 <= tail_padding code < 512.
Proof. unfold tail_padding. pose proof (aligned_size_bounds code). lia. Qed.

Lemma header_Ok (code : bytes) :
  aligned_size code <= 0xFFFFFFFF -> header code = Ok (header_bytes code 0x5F0A6C39).
Proof.
  intros Ha. pose proof (aligned_size_bounds code). pose proof (total_size_pos code).
  unfold header.
  rewrite (struct_pack_I_Ok (aligned_size code)) by lia.
  reflexivity.
Qed.

Lemma header_Raise (code : bytes) :
  0xFFFFFFFF < aligned_size code -> header code = Raise StructError.
Proof.
  intros Ha. unfold header.
  rewrite (struct_pack_I_Raise (aligned_size code)) by lia.
  reflexivity.
Qed.

Lemma header_inv (code h : bytes) :
  header code = Ok h -> aligned_size code <= 0xFFFFFFFF /\ h = header_bytes code 0x5F0A6C39.
Proof.
  intros Hh. destruct (decide (aligned_size code <= 0xFFFFFFFF)) as [Ha|Ha].
  - rewrite header_Ok in Hh by done. by injection Hh as <-.
  - rewrite header_Raise in Hh by lia. discriminate.
Qed.

Lemma length_header_bytes (code : bytes) : length (header_bytes code 0x5F0A6C39) = 32%nat.
Proof. reflexivity. Qed.

End Layout.

Module Image.
Import Py Sys Mkboot Format PyFacts SliceFacts Layout.

Lemma padding_eq : padding = replicate 16 xff.
Proof. reflexivity. Qed.

Lemma image_inv (code img : bytes) :
  image code = Ok img ->
  aligned_size code <= 0xFFFFFFFF /\
  img = header_bytes code 0x5F0A6C39 ++ replicate 16 xff ++ code ++ tail code.
Proof.
  unfold image. destruct (header code) as [h|e] eqn:Hh; [|discriminate].
  apply header_inv in Hh as [Ha ->]. intros [= <-]. done.
Qed.

Lemma image_Ok (code : bytes) :
  aligned_size code <= 0xFFFFFFFF ->
  image code = Ok (header_bytes code 0x5F0A6C39 ++ replicate 16 xff ++ code ++ tail code).
Proof. intros Ha. unfold image. rewrite header_Ok by done. reflexivity. Qed.

Lemma length_tail (code : bytes) :
  Z.of_nat (length (tail code)) = aligned_size code - 48 - len code.
Proof.
  unfold tail, bytes_mul. rewrite length_replicate.
  pose proof (tail_padding_bounds code) as Ht. rewrite Z2Nat.id by lia.
  unfold tail_padding, total_size, CODE_START_OFFSET. lia.
Qed.

Lemma len_image (code img : bytes) :
  image code = Ok img -> len img = aligned_size code.
Proof.
  intros [_ ->]%image_inv. unfold len.
  rewrite !length_app, length_header_bytes, length_replicate.
  pose proof (length_tail code). unfold len in *. lia.
Qed.

Lemma length_image_mul4 (code img : bytes) :
  image code = Ok img -> exists k, length img = (4 * k)%nat.
Proof.
  intros Hi. pose proof (len_image _ _ Hi) as Hl.
  pose proof (aligned_size_eq code) as He. pose proof (total_size_pos code).
  exists (Z.to_nat (128 * ((total_size code + 511) / 512))).
  unfold len in Hl. apply Nat2Z.inj. rewrite Hl, He.
  rewrite Nat2Z.inj_mul, Z2Nat.id; [lia|].
  Z.to_euclidean_division_equations. lia.
Qed.

End Image.

(** ** The checksum loop and the write-back *)

Module Checksum.
Import Py Sys Mkboot Format PyFacts SliceFacts Layout Image.

(** On an image of [4 * (j + k)] bytes, the loop run from word [j] adds
    the remaining [k] words to the running sum. *)
Lemma checksum_loop_words (k j : nat) (img : bytes) (acc : Z) :
  length img = (4 * (j + k))%nat ->
  checksum_loop img ((fun i => (4 * i)%nat) <$> seq j k) acc
  = Ok (acc + foldr Z.add 0 (le_words (drop (4 * j) img))).
Proof.
  revert j acc. induction k as [|k IH]; intros j acc Hlen.
  - rewrite drop_ge by lia. cbn. f_equal. lia.
  - cbn [seq fmap list_fmap checksum_loop]. unfold slice.
    replace (4 * j + 4 - 4 * j)%nat with 4%nat by lia.
    assert (Hd : length (drop (4 * j) img) = (4 + 4 * k)%nat)
      by (rewrite length_drop; lia).
    destruct (drop (4 * j) img) as [|b0 [|b1 [|b2 [|b3 rest]]]] eqn:E;
      try discriminate.
    assert (Hrest : rest = drop (4 * S j) img).
    { replace (4 * S j)%nat with (4 * j + 4)%nat by lia.
      rewrite <- drop_drop, E. reflexivity. }
    cbn [take struct_unpack_I le_words foldr]. rewrite take_0.
    cbn [mbind result_bind].
    change (list_fmap nat nat ?f ?l) with (f <$> l).
    rewrite IH by lia. rewrite <- Hrest. f_equal. lia.
Qed.

(** The loop computes the sum of the image's little-endian words. *)
Lemma checksum_word_sum (img : bytes) (k : nat) :
  length img = (4 * k)%nat -> checksum img = Ok (word_sum img).
Proof.
  intros Hlen. unfold checksum, word_sum.
  rewrite Hlen, range_0_4, checksum_loop_words by done.
  cbn [mbind result_bind mret result_ret drop]. f_equal.
  change 0xFFFFFFFF with (Z.ones 32). rewrite Z.land_ones by lia.
  f_equal.
Qed.

Lemma word_sum_range (b : bytes) : 0 <= word_sum b <= 0xFFFFFFFF.
Proof.
  unfold word_sum. pose proof (Z.mod_pos_bound (foldr Z.add 0 (le_words b)) (2^32)).
  lia.
Qed.

Lemma patch_Ok (img : bytes) (c : Z) :
  0 <= c <= 0xFFFFFFFF ->
  patch img c = Ok (set_slice img 12 16 (le32 c)).
Proof. intros Hc. unfold patch. rewrite struct_pack_I_Ok by done. reflexivity. Qed.

Lemma build_of_image (code img : bytes) :
  image code = Ok img ->
  build code = Ok (set_slice img 12 16 (le32 (word_sum img)), word_sum img).
Proof.
  intros Hi. destruct (length_image_mul4 _ _ Hi) as [k Hk].
  unfold build. rewrite Hi, bind_Ok, (checksum_word_sum img k Hk), bind_Ok.
  rewrite patch_Ok by apply word_sum_range. reflexivity.
Qed.

(** What a successful build went through. *)
Lemma build_inv (code out : bytes) (c : Z) :
  build code = Ok (out, c) ->
  exists img w,
    image code = Ok img /\ checksum img = Ok c /\ c = word_sum img /\
    struct_pack_I c = Ok w /\ out = set_slice img 12 16 w.
Proof.
  intros Hb. destruct (image code) as [img|e] eqn:Hi.
  - rewrite (build_of_image _ _ Hi) in Hb. injection Hb as <- <-.
    destruct (length_image_mul4 _ _ Hi) as [k Hk].
    exists img, (le32 (word_sum img)). split; [done|].
    split; [by eapply checksum_word_sum|]. split; [done|].
    split; [|done]. apply struct_pack_I_Ok, word_sum_range.
  - unfold build in Hb. rewrite Hi in Hb. discriminate.
Qed.

(** The build succeeds exactly when the aligned size fits the 32-bit
    length field. *)
Lemma build_Ok (code : bytes) :
  aligned_size code <= 0xFFFFFFFF -> exists out c, build code = Ok (out, c).
Proof.
  intros Ha. eexists _, _. apply build_of_image, image_Ok, Ha.
Qed.

Lemma build_Raise (code : bytes) :
  0xFFFFFFFF < aligned_size code -> build code = Raise StructError.
Proof.
  intros Ha. unfold build, image. rewrite header_Raise by done. reflexivity.
Qed.

(** A program of 4 GiB - 512 bytes is already too long: its aligned size
    is 2^32, which the length field cannot hold. *)
Example build_too_long :
  build (replicate (Z.to_nat 0xFFFFFE00) x00) = Raise StructError.
Proof.
  apply build_Raise.
  unfold aligned_size, total_size, len. rewrite length_replicate, Z2Nat.id by lia.
  reflexivity.
Qed.

End Checksum.

(** ** The written image against the format table *)

Module Output.
Import Py Sys Mkboot Format PyFacts SliceFacts Layout Image Checksum.

Lemma tail_eq (code : bytes) :
  tail code = replicate (Z.to_nat (aligned_size code - 0x30 - len code)) x00.
Proof.
  unfold tail, bytes_mul, tail_padding, total_size, CODE_START_OFFSET.
  f_equal. lia.
Qed.

Lemma image_eq (code img : bytes) :
  image code = Ok img -> img = image_bytes code 0x5F0A6C39.
Proof. intros [_ ->]%image_inv. unfold image_bytes. by rewrite tail_eq. Qed.

Lemma length_image_bytes (code : bytes) (f : Z) :
  len (image_bytes code f) = aligned_size code.
Proof.
  unfold len, image_bytes. rewrite !length_app, !length_replicate.
  change (length (header_bytes code f)) with 32%nat.
  pose proof (aligned_size_bounds code). unfold total_size, CODE_START_OFFSET, len in *.
  lia.
Qed.

(** Writing a field value over bytes 12-15 changes the checksum field of
    the table and nothing else. *)
Lemma set_slice_checksum_field (code : bytes) (f g : Z) :
  set_slice (image_bytes code f) 12 16 (le32 g) = image_bytes code g.
Proof. reflexivity. Qed.

Lemma build_eq (code out : bytes) (c : Z) :
  build code = Ok (out, c) ->
  aligned_size code <= 0xFFFFFFFF /\
  image code = Ok (image_bytes code 0x5F0A6C39) /\
  0 <= c <= 0xFFFFFFFF /\
  c = word_sum (image_bytes code 0x5F0A6C39) /\
  out = image_bytes code c.
Proof.
  intros (img & w & Hi & _ & Hc & Hw & ->)%build_inv.
  pose proof (image_inv _ _ Hi) as [Ha _].
  pose proof (image_eq _ _ Hi) as ->.
  apply struct_pack_I_inv in Hw as [Hr ->].
  split; [done|]. split; [done|]. split; [done|]. split; [done|].
  apply set_slice_checksum_field.
Qed.

End Output.

(** ** The script as a process *)

Module Process.
Import Py Sys Mkboot.

(** What one call of [make_boot0] does to the world, case by case. *)
Lemma make_boot0_run (bin_file output_file : string) (w : world) :
  make_boot0 bin_file output_file w =
  match files w !! bin_file with
  | None => (log_open bin_file RB w, Raise (OSError bin_file))
  | Some code =>
      match build code with
      | Raise e => (log_open bin_file RB w, Raise e)
      | Ok (image, checksum) =>
          if decide (output_file ∈ readonly w)
          then (log_open output_file WB (log_open bin_file RB w),
                Raise (OSError output_file))
          else (World (<[output_file := image]> (files w)) (readonly w)
                      (stdout w ++ summary output_file code image checksum)
                      (opens w ++ [(bin_file, RB); (output_file, WB)]),
                Ok tt)
      end
  end.
Proof.
  unfold make_boot0, mbind, IO_bind, read_file, lift.
  destruct (files w !! bin_file) as [code|]; [|reflexivity].
  destruct (build code) as [[image checksum]|e]; [|reflexivity].
  unfold write_file. cbn [log_open readonly files stdout opens].
  destruct (decide (output_file ∈ readonly w)); [reflexivity|].
  unfold print, summary. cbn [readonly files stdout opens].
  rewrite <- !app_assoc. reflexivity.
Qed.

(** Every call of the builder opens its input file first. *)
Lemma make_boot0_opens (bin_file output_file : string) (w : world) :
  exists rest, opens (make_boot0 bin_file output_file w).1
               = opens w ++ (bin_file, RB) :: rest.
Proof.
  rewrite make_boot0_run.
  destruct (files w !! bin_file) as [code|]; [|by exists []].
  destruct (build code) as [[image checksum]|e]; [|by exists []].
  destruct (decide (output_file ∈ readonly w)).
  - exists [(output_file, WB)]. cbn. by rewrite <- app_assoc.
  - by exists [(output_file, WB)].
Qed.

(** With a wrong argument count [main] prints the usage message and
    raises [SystemExit(1)], touching nothing else. *)
Lemma main_usage (script : string) (args : list string) (w : world) :
  length args ≠ 2%nat ->
  main (script :: args) w =
  (World (files w) (readonly w) (stdout w ++ usage script) (opens w),
   Raise (SystemExit 1)).
Proof.
  intros Hn. unfold main. rewrite decide_True by (unfold len; cbn [length]; lia).
  unfold mbind, IO_bind, lift, index, print, sys_exit, lift, usage.
  cbn [lookup list_lookup readonly files stdout opens].
  rewrite <- !app_assoc. reflexivity.
Qed.

(** With two arguments [main] is the builder on them. *)
Lemma main_build (script bin_file output_file : string) (w : world) :
  main [script; bin_file; output_file] w = make_boot0 bin_file output_file w.
Proof. reflexivity. Qed.

End Process.

(** ** Properties of the image *)

Import Py Sys Mkboot Format Samples.
Import PyFacts SliceFacts Layout Image Checksum Output Process.

(** C1 (checksum round-trip).  Take the image the builder produces, put
    the placeholder 0x5F0A6C39 back into bytes 12-15 and sum the whole
    image as little-endian 32-bit words modulo 2^32: the sum is the
    checksum stored in bytes 12-15, both by the word-by-word reading of
    the file and by the builder's own summing loop. *)
Theorem checksum_roundtrip (code out : bytes) (c : Z) :
  build code = Ok (out, c) ->
  exists stamp stored,
    struct_pack_I 0x5F0A6C39 = Ok stamp /\
    struct_unpack_I (slice out 12 16) = Ok stored /\
    word_sum (set_slice out 12 16 stamp) = stored /\
    checksum (set_slice out 12 16 stamp) = Ok stored /\
    stored = c.
Proof.
  intros Hb. pose proof (build_inv _ _ _ Hb) as (img & _ & Hi & Hck & _).
  apply build_eq in Hb as (_ & _ & Hr & Hc & ->).
  apply image_eq in Hi as ->.
  exists (le32 0x5F0A6C39), c.
  split; [reflexivity|].
  split; [apply struct_unpack_pack; by rewrite struct_pack_I_Ok|].
  rewrite set_slice_checksum_field. done.
Qed.

Lemma checksum_roundtrip_witness :
  build sample_code = Ok (sample_out, sample_checksum) /\
  exists stamp stored,
    struct_pack_I 0x5F0A6C39 = Ok stamp /\
    struct_unpack_I (slice sample_out 12 16) = Ok stored /\
    word_sum (set_slice sample_out 12 16 stamp) = stored /\
    checksum (set_slice sample_out 12 16 stamp) = Ok stored /\
    stored = sample_checksum.
Proof.
  split; [vm_compute; reflexivity|].
  apply (checksum_roundtrip sample_code). vm_compute; reflexivity.
Defined.

(** C2 (image length).  For a program of [L] bytes the builder's image
    has exactly [(0x30 + L + 511) & ~511] bytes, a positive multiple of
    512; the builder produces it whenever that size fits the 32-bit
    length field of the header. *)
Theorem image_length (code : bytes) :
  let size := Z.land (0x30 + len code + 511) (Z.lnot 511) in
  0 < size /\ size mod 512 = 0 /\
  (forall out c, build code = Ok (out, c) -> len out = size) /\
  (size <= 0xFFFFFFFF -> exists out c, build code = Ok (out, c) /\ len out = size).
Proof.
  cbv zeta. change (Z.land (0x30 + len code + 511) (Z.lnot 511)) with (aligned_size code).
  pose proof (aligned_size_bounds code). pose proof (total_size_pos code).
  split; [lia|]. split; [apply aligned_size_mod|].
  assert (Hl : forall out c, build code = Ok (out, c) -> len out = aligned_size code).
  { intros out c (_ & _ & _ & _ & ->)%build_eq. apply length_image_bytes. }
  split; [exact Hl|].
  intros Ha. destruct (build_Ok code Ha) as (out & c & Hb).
  exists out, c. split; [done|]. by eapply Hl.
Qed.

Lemma image_length_witness :
  build sample_code = Ok (sample_out, sample_checksum) /\ len sample_out = 512.
Proof.
  assert (Hb : build sample_code = Ok (sample_out, sample_checksum))
    by (vm_compute; reflexivity).
  split; [exact Hb|].
  exact (proj1 (proj2 (proj2 (image_length sample_code))) _ _ Hb).
Defined.

(** C3 (layout before the patch).  The image assembled before the
    checksum is written back is the 32-byte header, then 16 bytes 0xFF
    at offsets 0x20-0x2F, then the program verbatim from offset 0x30,
    then [aligned_size - 0x30 - L] bytes 0x00: every byte from offset
    [0x30 + L] to the end of the image is zero. *)
Theorem image_layout (code img : bytes) :
  image code = Ok img ->
  exists h,
    header code = Ok h /\ length h = 32%nat /\
    0 <= aligned_size code - 0x30 - len code /\
    img = h ++ replicate 16 xff ++ code
            ++ replicate (Z.to_nat (aligned_size code - 0x30 - len code)) x00 /\
    (forall i, (0x20 <= i < 0x30)%nat -> img !! i = Some xff) /\
    (forall i, (i < length code)%nat -> img !! (0x30 + i)%nat = code !! i) /\
    (forall i, (0x30 + length code <= i < length img)%nat -> img !! i = Some x00).
Proof.
  intros Hi. pose proof (len_image _ _ Hi) as Hlen.
  pose proof (image_inv _ _ Hi) as [Ha _]. apply image_eq in Hi as ->.
  pose proof (aligned_size_bounds code) as Hb.
  unfold total_size, CODE_START_OFFSET in Hb.
  exists (header_bytes code 0x5F0A6C39).
  split; [by apply header_Ok|]. split; [reflexivity|]. split; [lia|].
  split; [reflexivity|]. unfold image_bytes.
  assert (Hh : length (header_bytes code 0x5F0A6C39) = 32%nat) by reflexivity.
  unfold bytes in *. split; [|split].
  - intros i Hr. rewrite lookup_app_r by lia.
    rewrite lookup_app_l by (rewrite length_replicate; lia).
    apply lookup_replicate_2. lia.
  - intros i Hr. rewrite lookup_app_r by lia.
    rewrite lookup_app_r by (rewrite length_replicate; lia).
    rewrite lookup_app_l by (rewrite length_replicate; lia).
    f_equal. rewrite length_replicate. lia.
  - intros i Hr. unfold len in Hlen.
    rewrite lookup_app_r by lia.
    rewrite lookup_app_r by (rewrite length_replicate; lia).
    rewrite lookup_app_r by (rewrite length_replicate; lia).
    apply lookup_replicate_2. rewrite !length_replicate.
    unfold image_bytes in Hr. rewrite !length_app, !length_replicate in Hr. lia.
Qed.

Lemma image_layout_witness :
  image sample_code = Ok sample_image /\
  exists h,
    header sample_code = Ok h /\ length h = 32%nat /\
    0 <= aligned_size sample_code - 0x30 - len sample_code /\
    sample_image = h ++ replicate 16 xff ++ sample_code
            ++ replicate (Z.to_nat (aligned_size sample_code - 0x30 - len sample_code)) x00 /\
    (forall i, (0x20 <= i < 0x30)%nat -> sample_image !! i = Some xff) /\
    (forall i, (i < length sample_code)%nat ->
       sample_image !! (0x30 + i)%nat = sample_code !! i) /\
    (forall i, (0x30 + length sample_code <= i < length sample_image)%nat ->
       sample_image !! i = Some x00).
Proof.
  split; [vm_compute; reflexivity|].
  apply (image_layout sample_code). vm_compute; reflexivity.
Defined.

(** C4 (constant header fields).  In every image the builder produces,
    bytes 0-3 are the little-endian word
    [0xEA000000 | ((0x30/4 - 2) & 0x00FFFFFF)], which is 0xEA00000A;
    bytes 4-11 are the ASCII magic eGON.BT0; bytes 20-23 are 32 as a
    little-endian word; bytes 24-31 are zero. *)
Theorem header_constants (code out : bytes) (c : Z) :
  build code = Ok (out, c) ->
  reset_vector = Z.lor 0xEA000000 (Z.land (0x30 / 4 - 2) 0x00FFFFFF) /\
  reset_vector = 0xEA00000A /\
  struct_pack_I reset_vector = Ok (slice out 0 4) /\
  struct_unpack_I (slice out 0 4) = Ok 0xEA00000A /\
  slice out 4 12 = list_byte_of_string "eGON.BT0" /\
  struct_unpack_I (slice out 20 24) = Ok 32 /\
  slice out 24 32 = replicate 8 x00.
Proof.
  intros (_ & _ & _ & _ & ->)%build_eq. repeat split; reflexivity.
Qed.

Lemma header_constants_witness :
  build sample_code = Ok (sample_out, sample_checksum) /\
  struct_unpack_I (slice sample_out 0 4) = Ok 0xEA00000A /\
  slice sample_out 4 12 = list_byte_of_string "eGON.BT0".
Proof.
  assert (Hb : build sample_code = Ok (sample_out, sample_checksum))
    by (vm_compute; reflexivity).
  split; [exact Hb|].
  pose proof (header_constants sample_code _ _ Hb) as (_ & _ & _ & Hv & Hm & _).
  split; [exact Hv | exact Hm].
Defined.

(** C5 (length field).  In every image the builder produces, bytes
    0x10-0x13 read as a little-endian unsigned 32-bit integer give the
    byte length of that image. *)
Theorem length_field (code out : bytes) (c : Z) :
  build code = Ok (out, c) ->
  struct_unpack_I (slice out 0x10 0x14) = Ok (len out).
Proof.
  intros (Ha & _ & _ & _ & ->)%build_eq.
  rewrite length_image_bytes.
  change (slice (image_bytes code c) 16 20) with (le32 (aligned_size code)).
  apply struct_unpack_pack, struct_pack_I_Ok.
  pose proof (aligned_size_bounds code). pose proof (total_size_pos code). lia.
Qed.

Lemma length_field_witness :
  build sample_code = Ok (sample_out, sample_checksum) /\
  struct_unpack_I (slice sample_out 0x10 0x14) = Ok (len sample_out).
Proof.
  split; [vm_compute; reflexivity|].
  apply (length_field sample_code _ sample_checksum). vm_compute; reflexivity.
Defined.

(** The word decode does fail on a partial word: summing five bytes
    raises [struct.error] at the second slice. *)
Example checksum_partial_word :
  range 0 5 4 = [0; 4]%nat /\
  slice [x01; x02; x03; x04; x05] 4 8 = [x05] /\
  checksum [x01; x02; x03; x04; x05] = Raise StructError.
Proof. repeat split. Qed.

(** C6 (the checksum loop is safe).  The assembled image has a length
    that is a multiple of 512, hence of 4; so every slice [image[i:i+4]]
    the loop reads, for [i] in [range(0, len(image), 4)], lies within the
    image and has four bytes, its decode succeeds, and the loop ends
    with a checksum. *)
Theorem checksum_loop_safe (code img : bytes) :
  image code = Ok img ->
  len img mod 512 = 0 /\ len img mod 4 = 0 /\
  (forall i, i ∈ range 0 (length img) 4 ->
     (i + 4 <= length img)%nat /\
     length (slice img i (i + 4)) = 4%nat /\
     exists word, struct_unpack_I (slice img i (i + 4)) = Ok word) /\
  exists c, checksum img = Ok c.
Proof.
  intros Hi. destruct (length_image_mul4 _ _ Hi) as [k Hk].
  split; [rewrite (len_image _ _ Hi); apply aligned_size_mod|].
  split; [unfold len; rewrite Hk, Nat2Z.inj_mul, Z.mul_comm; by apply Z.mod_mul|].
  split.
  - intros i (j & -> & Hj)%elem_of_range; [|lia].
    assert (Hle : (0 + j * 4 + 4 <= length img)%nat) by lia.
    split; [exact Hle|].
    assert (Hs : length (slice img (0 + j * 4) (0 + j * 4 + 4)) = 4%nat)
      by (rewrite length_slice; lia).
    split; [exact Hs|].
    destruct (struct_unpack_I_Ok _ Hs) as (word & Hw & _). by exists word.
  - exists (word_sum img). by eapply checksum_word_sum.
Qed.

Lemma checksum_loop_safe_witness :
  image sample_code = Ok sample_image /\
  (forall i, i ∈ range 0 (length sample_image) 4 -> (i + 4 <= length sample_image)%nat) /\
  exists c, checksum sample_image = Ok c.
Proof.
  assert (Hi : image sample_code = Ok sample_image) by (vm_compute; reflexivity).
  split; [exact Hi|].
  pose proof (checksum_loop_safe sample_code _ Hi) as (_ & _ & Hs & Hc).
  split; [|exact Hc]. intros i Hin. exact (proj1 (Hs i Hin)).
Defined.

(** C7 (the patch touches bytes 12-15 only).  The image written is the
    assembled image with the checksum packed over bytes 12-15: it has
    the same length, and the same byte at every offset outside
    [12, 16). *)
Theorem patch_frame (code img out : bytes) (c : Z) :
  image code = Ok img ->
  build code = Ok (out, c) ->
  patch img c = Ok out /\
  length out = length img /\
  take 12 out = take 12 img /\
  drop 16 out = drop 16 img /\
  forall i, ¬ (12 <= i < 16)%nat -> out !! i = img !! i.
Proof.
  intros Hi (img' & w & Hi' & _ & _ & Hw & ->)%build_inv.
  rewrite Hi in Hi'. injection Hi' as <-.
  pose proof (struct_pack_I_inv _ _ Hw) as [_ Hwl].
  assert (Hlw : length w = 4%nat) by (by subst w).
  assert (Hl : (48 <= length img)%nat).
  { pose proof (len_image _ _ Hi). pose proof (aligned_size_bounds code).
    pose proof (total_size_pos code). unfold len in *. lia. }
  split; [unfold patch; by rewrite Hw|].
  split; [apply length_set_slice; lia|].
  split; [unfold set_slice; rewrite take_app_length'; [done|rewrite length_take; lia]|].
  split.
  - unfold set_slice. rewrite drop_app_ge by (rewrite length_take; lia).
    rewrite drop_app_ge by (rewrite length_take; lia).
    rewrite drop_drop, length_take. f_equal. lia.
  - intros i Hr. destruct (decide (i < 12)%nat).
    + apply set_slice_lookup_lt; lia.
    + apply set_slice_lookup_ge; lia.
Qed.

Lemma patch_frame_witness :
  image sample_code = Ok sample_image /\
  build sample_code = Ok (sample_out, sample_checksum) /\
  length sample_out = length sample_image /\
  forall i, ¬ (12 <= i < 16)%nat -> sample_out !! i = sample_image !! i.
Proof.
  assert (Hi : image sample_code = Ok sample_image) by (vm_compute; reflexivity).
  assert (Hb : build sample_code = Ok (sample_out, sample_checksum))
    by (vm_compute; reflexivity).
  split; [exact Hi|]. split; [exact Hb|].
  pose proof (patch_frame sample_code _ _ _ Hi Hb) as (_ & Hl & _ & _ & Hf).
  split; [exact Hl | exact Hf].
Defined.

(** ** Properties of the process *)

(** C8 (usage error).  Run with any number of positional arguments other
    than two, the script prints the usage message on standard output and
    ends with a non-zero exit status; no file is written and no file is
    opened, so the builder, which opens its input first, was not
    called. *)
Theorem usage_error (script : string) (args : list string) (w : world) :
  length args ≠ 2%nat ->
  exists w' status,
    run (script :: args) w = (w', status) /\
    stdout w' = stdout w ++ usage script /\
    status ≠ 0 /\
    files w' = files w /\
    opens w' = opens w /\
    forall bin_file output_file,
      opens (make_boot0 bin_file output_file w).1 ≠ opens w'.
Proof.
  intros Hn. unfold run. rewrite main_usage by done.
  eexists _, _. split; [reflexivity|]. cbn [stdout files opens exit_status].
  repeat split; try done.
  intros bin_file output_file Heq.
  destruct (make_boot0_opens bin_file output_file w) as [rest Hr].
  rewrite Hr in Heq. apply (f_equal length) in Heq.
  rewrite length_app in Heq. cbn [length] in Heq. lia.
Qed.

Lemma usage_error_witness :
  exists w' status,
    run ["mkboot.py"; "in.bin"]%string sample_world = (w', status) /\
    stdout w' = stdout sample_world ++ usage "mkboot.py" /\
    status ≠ 0 /\
    files w' = files sample_world /\
    opens w' = opens sample_world /\
    forall bin_file output_file,
      opens (make_boot0 bin_file output_file sample_world).1 ≠ opens w'.
Proof.
  apply (usage_error "mkboot.py" ["in.bin"%string] sample_world).
  cbn [length]. lia.
Defined.

(** C9 (determinism).  Two runs of the builder that read the same bytes,
    under whatever file names and in whatever surroundings, write the
    same bytes: the image is the one [build] computes from the input
    bytes alone. *)
Theorem make_boot0_deterministic
    (code : bytes) (bin1 out1 bin2 out2 : string) (w1 w1' w2 w2' : world) :
  files w1 !! bin1 = Some code ->
  files w2 !! bin2 = Some code ->
  make_boot0 bin1 out1 w1 = (w1', Ok tt) ->
  make_boot0 bin2 out2 w2 = (w2', Ok tt) ->
  exists image checksum,
    build code = Ok (image, checksum) /\
    files w1' !! out1 = Some image /\
    files w2' !! out2 = Some image.
Proof.
  intros Hc1 Hc2. rewrite !make_boot0_run, Hc1, Hc2.
  destruct (build code) as [[image checksum]|e]; [|discriminate].
  do 2 (case_decide; [discriminate|]).
  intros [= <-] [= <-]. exists image, checksum.
  cbn [files]. by rewrite !lookup_insert_eq.
Qed.

Lemma make_boot0_deterministic_witness :
  exists w1' w2',
    make_boot0 "in.bin" "out.bin" sample_world = (w1', Ok tt) /\
    make_boot0 "fw/app.bin" "fw/boot.img" sample_world' = (w2', Ok tt) /\
    exists image checksum,
      build sample_code = Ok (image, checksum) /\
      files w1' !! "out.bin"%string = Some image /\
      files w2' !! "fw/boot.img"%string = Some image.
Proof.
  eexists _, _.
  assert (H1 : files sample_world !! "in.bin"%string = Some sample_code)
    by (vm_compute; reflexivity).
  assert (H2 : files sample_world' !! "fw/app.bin"%string = Some sample_code)
    by (vm_compute; reflexivity).
  assert (Hb : build sample_code = Ok (sample_out, sample_checksum))
    by (vm_compute; reflexivity).
  assert (R1 : make_boot0 "in.bin" "out.bin" sample_world
               = (World (<["out.bin"%string := sample_out]> (files sample_world))
                        (readonly sample_world)
                        (stdout sample_world
                           ++ summary "out.bin" sample_code sample_out sample_checksum)
                        (opens sample_world ++ [("in.bin"%string, RB); ("out.bin"%string, WB)]),
                  Ok tt)).
  { rewrite make_boot0_run, H1, Hb. rewrite decide_False; [reflexivity|].
    apply not_elem_of_empty. }
  assert (R2 : make_boot0 "fw/app.bin" "fw/boot.img" sample_world'
               = (World (<["fw/boot.img"%string := sample_out]> (files sample_world'))
                        (readonly sample_world')
                        (stdout sample_world'
                           ++ summary "fw/boot.img" sample_code sample_out sample_checksum)
                        (opens sample_world'
                           ++ [("fw/app.bin"%string, RB); ("fw/boot.img"%string, WB)]),
                  Ok tt)).
  { rewrite make_boot0_run, H2, Hb. rewrite decide_False; [reflexivity|].
    cbn [readonly sample_world']. rewrite elem_of_singleton. discriminate. }
  split; [exact R1|]. split; [exact R2|].
  exact (make_boot0_deterministic sample_code _ _ _ _ _ _ _ _ H1 H2 R1 R2).
Defined.

(** C10 (exit status 1).  On a usage error the exit status of the
    process is exactly 1. *)
Theorem usage_exit_status (script : string) (args : list string) (w : world) :
  length args ≠ 2%nat -> (run (script :: args) w).2 = 1.
Proof.
  intros Hn. unfold run. by rewrite main_usage.
Qed.

Lemma usage_exit_status_witness :
  (run ["mkboot.py"; "a.bin"; "b.bin"; "c.bin"]%string sample_world).2 = 1.
Proof.
  apply (usage_exit_status "mkboot.py" ["a.bin"; "b.bin"; "c.bin"]%string sample_world).
  cbn [length]. lia.
Defined.

(** ** Sizes, acceptance and what the image keeps of the program *)

Module Sizes.
Import Py Sys Mkboot Format PyFacts SliceFacts Layout Image Checksum Output.

(** The aligned size fits the length field exactly for programs of at most
    [0xFFFFFE00 - 0x30] bytes. *)
Lemma aligned_size_fits (code : bytes) :
  aligned_size code <= 0xFFFFFFFF <-> len code <= 0xFFFFFE00 - 0x30.
Proof.
  rewrite aligned_size_eq. unfold total_size, CODE_START_OFFSET.
  Z.to_euclidean_division_equations. lia.
Qed.

Lemma len_app_replicate (code : bytes) (n : nat) (b : byte) :
  len (code ++ replicate n b) = len code + Z.of_nat n.
Proof. unfold len. rewrite length_app, length_replicate. lia. Qed.

(** Zeros appended within the tail padding leave the aligned size alone. *)
Lemma aligned_size_app_zeros (code : bytes) (n : nat) :
  Z.of_nat n <= tail_padding code ->
  aligned_size (code ++ replicate n x00) = aligned_size code.
Proof.
  intros Hn. pose proof (aligned_size_bounds code) as Hb.
  pose proof (aligned_size_eq code) as He.
  rewrite aligned_size_eq. unfold tail_padding in Hn.
  unfold total_size in *. rewrite len_app_replicate.
  Z.to_euclidean_division_equations. lia.
Qed.

Lemma image_app_zeros (code : bytes) (n : nat) :
  Z.of_nat n <= tail_padding code ->
  image (code ++ replicate n x00) = image code.
Proof.
  intros Hn. pose proof (aligned_size_app_zeros code n Hn) as Ha.
  assert (Hh : header (code ++ replicate n x00) = header code)
    by (unfold header; by rewrite Ha).
  unfold image. rewrite Hh. destruct (header code) as [h|e]; [|reflexivity].
  rewrite !bind_Ok. do 3 f_equal.
  unfold tail, bytes_mul, tail_padding. rewrite Ha. unfold total_size.
  rewrite len_app_replicate, <- app_assoc. f_equal.
  rewrite <- replicate_add. f_equal.
  unfold tail_padding, total_size in Hn. lia.
Qed.

End Sizes.

(** ** Further properties of the builder *)

Import Sizes.

(** X1 (which programs are accepted).  The builder produces an image
    exactly for programs of at most 0xFFFFFE00 - 0x30 bytes; for every
    longer program it raises [struct.error], the aligned size no longer
    fitting the header's 32-bit length field. *)
Theorem build_accepts (code : bytes) :
  ((exists out c, build code = Ok (out, c)) <-> len code <= 0xFFFFFE00 - 0x30) /\
  (build code = Raise StructError <-> 0xFFFFFE00 - 0x30 < len code).
Proof.
  pose proof (aligned_size_fits code) as Hf.
  destruct (decide (aligned_size code <= 0xFFFFFFFF)) as [Ha|Ha].
  - destruct (build_Ok code Ha) as (out & c & Hb). split.
    + split; [intros _; by apply Hf | intros _; by exists out, c].
    + split; [rewrite Hb; discriminate | intros Hl; apply Hf in Ha; lia].
  - pose proof (build_Raise code ltac:(lia)) as Hb. split.
    + split; [intros (out & c & Hc); rewrite Hb in Hc; discriminate|].
      intros Hl. apply Hf in Hl. lia.
    + split; [intros _; lia | done].
Qed.

(** X2 (rounding).  The aligned size is the least multiple of 512 that
    holds the 0x30 bytes before the program and the program itself, so
    the zero padding at the end is always shorter than 512 bytes. *)
Theorem aligned_size_least (code : bytes) :
  aligned_size code mod 512 = 0 /\
  total_size code <= aligned_size code /\
  0 <= tail_padding code < 512 /\
  forall m, m mod 512 = 0 -> total_size code <= m -> aligned_size code <= m.
Proof.
  pose proof (aligned_size_bounds code) as Hb.
  split; [apply aligned_size_mod|]. split; [lia|].
  split; [apply tail_padding_bounds|].
  intros m Hm Ht. rewrite aligned_size_eq in *.
  Z.to_euclidean_division_equations. lia.
Qed.

(** X3 (trailing zeros are not recorded).  Zero bytes appended to a
    program, as many as its tail padding has room for, change nothing:
    the builder returns the same image and the same checksum, so the
    image does not tell where the program ended. *)
Theorem build_trailing_zeros (code : bytes) (n : nat) :
  Z.of_nat n <= tail_padding code ->
  build (code ++ replicate n x00) = build code.
Proof.
  intros Hn. unfold build. by rewrite image_app_zeros.
Qed.

Lemma build_trailing_zeros_witness :
  Z.of_nat 3 <= tail_padding sample_code /\
  build (sample_code ++ replicate 3 x00) = build sample_code.
Proof.
  assert (Hn : Z.of_nat 3 <= tail_padding sample_code) by (vm_compute; discriminate).
  split; [exact Hn|]. exact (build_trailing_zeros sample_code 3 Hn).
Defined.

(** X4 (the program can be read back).  In every image the builder
    produces, the bytes from offset 0x30 up to 0x30 plus the program's
    length are the program; hence two programs of the same length with
    the same image are the same program. *)
Theorem code_recoverable (code out : bytes) (c : Z) :
  build code = Ok (out, c) ->
  slice out 0x30 (0x30 + length code) = code /\
  forall code' c',
    length code' = length code -> build code' = Ok (out, c') -> code' = code.
Proof.
  assert (Hs : forall code out c, build code = Ok (out, c) ->
            slice out 0x30 (0x30 + length code) = code).
  { clear. intros code out c (_ & _ & _ & _ & ->)%build_eq.
    unfold slice. replace (48 + length code - 48)%nat with (length code) by lia.
    change (drop 48 (image_bytes code c))
      with (code ++ replicate (Z.to_nat (aligned_size code - 0x30 - len code)) x00).
    by rewrite take_app_length. }
  intros Hb. split; [by eapply Hs|].
  intros code' c' Hl Hb'. apply Hs in Hb, Hb'. rewrite Hl in Hb'. congruence.
Qed.

Lemma code_recoverable_witness :
  build sample_code = Ok (sample_out, sample_checksum) /\
  slice sample_out 0x30 (0x30 + length sample_code) = sample_code.
Proof.
  assert (Hb : build sample_code = Ok (sample_out, sample_checksum))
    by (vm_compute; reflexivity).
  split; [exact Hb|]. exact (proj1 (code_recoverable sample_code _ _ Hb)).
Defined.

(** X5 (building twice wraps twice).  Given one of its own images as the
    program, the builder does not recognise it: it adds a second header
    and the result is exactly 512 bytes longer. *)
Theorem build_again (code out out' : bytes) (c c' : Z) :
  build code = Ok (out, c) ->
  build out = Ok (out', c') ->
  len out' = len out + 512 /\ slice out' 0x30 (0x30 + length out) = out.
Proof.
  intros Hb Hb'.
  pose proof (build_eq _ _ _ Hb) as (_ & _ & _ & _ & Ho).
  pose proof (build_eq _ _ _ Hb') as (_ & _ & _ & _ & Ho').
  assert (Hl : len out = aligned_size code) by (rewrite Ho; apply length_image_bytes).
  assert (Hl' : len out' = aligned_size out) by (rewrite Ho'; apply length_image_bytes).
  split.
  - rewrite Hl', (aligned_size_eq out). unfold total_size, CODE_START_OFFSET.
    pose proof (aligned_size_mod code). rewrite Hl.
    Z.to_euclidean_division_equations. lia.
  - rewrite Ho' at 1. unfold slice.
    replace (48 + length out - 48)%nat with (length out) by lia.
    change (drop 48 (image_bytes out c'))
      with (out ++ replicate (Z.to_nat (aligned_size out - 0x30 - len out)) x00).
    by rewrite take_app_length.
Qed.

Lemma build_again_witness :
  exists out' c',
    build sample_code = Ok (sample_out, sample_checksum) /\
    build sample_out = Ok (out', c') /\
    len out' = len sample_out + 512 /\
    slice out' 0x30 (0x30 + length sample_out) = sample_out.
Proof.
  assert (Hb : build sample_code = Ok (sample_out, sample_checksum))
    by (vm_compute; reflexivity).
  assert (exists out' c', build sample_out = Ok (out', c')) as (out' & c' & Hb').
  { destruct (build sample_out) as [[o c0]|e] eqn:E;
      [by exists o, c0 | vm_compute in E; discriminate]. }
  exists out', c'. split; [exact Hb|]. split; [exact Hb'|].
  exact (build_again sample_code _ _ _ _ Hb Hb').
Defined.

(** ** The checksum as a function of the image *)

Module Sums.
Import Py Sys Mkboot Format PyFacts SliceFacts Layout Image Checksum Output.

Lemma length_slice_min {A : Type} (l : list A) (lo hi : nat) :
  length (slice l lo hi) = Nat.min (hi - lo) (length l - lo).
Proof. unfold slice. by rewrite length_take, length_drop. Qed.

(** One short slice anywhere among the indices makes the loop raise. *)
Lemma checksum_loop_raise (img : bytes) (indices : list nat) (acc : Z) :
  Exists (fun i => length (slice img i (i + 4)) ≠ 4%nat) indices ->
  checksum_loop img indices acc = Raise StructError.
Proof.
  revert acc. induction indices as [|i indices IH]; intros acc Hex.
  - by apply Exists_nil in Hex.
  - cbn [checksum_loop].
    destruct (decide (length (slice img i (i + 4)) = 4%nat)) as [Hl|Hl].
    + destruct (struct_unpack_I_Ok _ Hl) as (word & -> & _). rewrite bind_Ok.
      apply IH. apply Exists_cons in Hex as [Hh|Ht]; [done|exact Ht].
    + by rewrite struct_unpack_I_Raise.
Qed.

Lemma checksum_partial (img : bytes) :
  (length img mod 4 ≠ 0)%nat -> checksum img = Raise StructError.
Proof.
  intros Hm. unfold checksum.
  rewrite (checksum_loop_raise img _ 0); [reflexivity|].
  apply Exists_exists. exists (0 + (length img / 4) * 4)%nat.
  pose proof (Nat.div_mod_eq (length img) 4) as Hd.
  pose proof (Nat.mod_upper_bound (length img) 4 ltac:(lia)) as Hu.
  split.
  - apply elem_of_range; [lia|]. exists (length img / 4)%nat. split; [done|]. lia.
  - rewrite length_slice_min. lia.
Qed.

(** Four bytes are determined by the word they encode. *)
Lemma byte_to_Z_inj (a b : byte) : byte_to_Z a = byte_to_Z b -> a = b.
Proof. intros H. by rewrite <- (byte_of_to_Z a), <- (byte_of_to_Z b), H. Qed.

(** Replacing one byte by a different one moves the sum of the words by
    an amount that is not a multiple of 2^32. *)
Lemma word_total_insert (k : nat) (img : bytes) (i : nat) (b0 b : byte) :
  length img = (4 * k)%nat ->
  img !! i = Some b0 -> b ≠ b0 ->
  (foldr Z.add 0 (le_words (<[i := b]> img)) - foldr Z.add 0 (le_words img))
    mod 2^32 ≠ 0.
Proof.
  revert img i. induction k as [|k IH]; intros img i Hlen Hi Hne.
  - destruct img; [done|discriminate].
  - destruct img as [|a0 [|a1 [|a2 [|a3 rest]]]]; cbn [length] in Hlen; try lia.
    assert (Hb : byte_to_Z b ≠ byte_to_Z b0) by (intros ?%byte_to_Z_inj; done).
    pose proof (byte_to_Z_range b) as Rb.
    change (2 ^ 32) with 4294967296.
    destruct i as [|[|[|[|i]]]]; cbn in Hi.
    1-4: injection Hi as ->; cbn [insert list_insert le_words foldr];
         pose proof (byte_to_Z_range b0);
         change (2 ^ 8) with 256; change (2 ^ 16) with 65536;
         change (2 ^ 24) with 16777216;
         Z.to_euclidean_division_equations; lia.
    cbn [insert list_insert le_words foldr].
    assert (Hr : length rest = (4 * k)%nat) by lia.
    specialize (IH rest i Hr Hi Hne).
    change (2 ^ 32) with 4294967296 in IH.
    change (list_insert i b rest) with (<[i := b]> rest).
    set (s' := foldr Z.add 0 (le_words (<[i:=b]> rest))) in *.
    set (s := foldr Z.add 0 (le_words rest)) in *.
    replace (_ + s' - (_ + s)) with (s' - s) by lia. exact IH.
Qed.

End Sums.

Import Sums.

(** X6 (what the summing loop does on any byte string).  On a byte
    string whose length is a multiple of four the loop returns the sum of
    its little-endian 32-bit words modulo 2^32; on any other length the
    last slice is short and the loop raises [struct.error].  The empty
    string sums to 0. *)
Theorem checksum_by_length (img : bytes) :
  checksum img =
    (if decide (length img mod 4 = 0)%nat then Ok (word_sum img) else Raise StructError)
  /\ checksum [] = Ok 0.
Proof.
  split; [|reflexivity]. case_decide as Hm.
  - apply (checksum_word_sum img (length img / 4)).
    pose proof (Nat.div_mod_eq (length img) 4). lia.
  - by apply checksum_partial.
Qed.

(** X7 (a changed byte changes the checksum).  If one byte of a byte
    string is replaced by a different byte, the checksum the loop
    computes changes. *)
Theorem checksum_detects_byte (img : bytes) (i : nat) (b0 b : byte) (c c' : Z) :
  img !! i = Some b0 -> b ≠ b0 ->
  checksum img = Ok c ->
  checksum (<[i := b]> img) = Ok c' ->
  c ≠ c'.
Proof.
  intros Hi Hne Hc Hc'.
  destruct (decide (length img mod 4 = 0)%nat) as [Hm|Hm];
    [|rewrite checksum_partial in Hc by done; discriminate].
  assert (Hk : length img = (4 * (length img / 4))%nat)
    by (pose proof (Nat.div_mod_eq (length img) 4); lia).
  rewrite (checksum_word_sum _ _ Hk) in Hc.
  rewrite (checksum_word_sum _ (length img / 4)) in Hc'
    by (rewrite <- Hk; apply length_insert).
  injection Hc as <-. injection Hc' as <-.
  pose proof (word_total_insert _ _ _ _ _ Hk Hi Hne) as Hd.
  unfold word_sum. change (2 ^ 32) with 4294967296 in *.
  intros Heq. apply Hd. Z.to_euclidean_division_equations. lia.
Qed.

Lemma checksum_detects_byte_witness :
  exists c c',
    sample_image !! 48%nat = Some x11 /\
    checksum sample_image = Ok c /\
    checksum (<[48%nat := x12]> sample_image) = Ok c' /\
    c ≠ c'.
Proof.
  assert (Hi : sample_image !! 48%nat = Some x11) by reflexivity.
  assert (Hc : checksum sample_image = Ok 3350067203) by (vm_compute; reflexivity).
  assert (Hc' : checksum (<[48%nat := x12]> sample_image) = Ok 3350067204)
    by (vm_compute; reflexivity).
  exists 3350067203, 3350067204. split; [exact Hi|]. split; [exact Hc|].
  split; [exact Hc'|].
  refine (checksum_detects_byte sample_image 48 x11 x12 _ _ Hi _ Hc Hc').
  discriminate.
Defined.

(** ** Runs with two arguments *)

(** X8 (missing input).  When the input file cannot be opened, the run
    ends with [OSError] on that path and exit status 1: the output file
    is never opened, no file changes and nothing is printed. *)
Theorem run_missing_input (script bin_file output_file : string) (w : world) :
  files w !! bin_file = None ->
  exists w',
    main [script; bin_file; output_file] w = (w', Raise (OSError bin_file)) /\
    run [script; bin_file; output_file] w = (w', 1) /\
    files w' = files w /\ stdout w' = stdout w /\
    opens w' = opens w ++ [(bin_file, RB)].
Proof.
  intros Hf. unfold run. rewrite main_build, make_boot0_run, Hf.
  eexists. repeat split.
Qed.

Lemma run_missing_input_witness :
  exists w',
    main ["mkboot.py"; "absent.bin"; "out.bin"]%string sample_world
      = (w', Raise (OSError "absent.bin")) /\
    run ["mkboot.py"; "absent.bin"; "out.bin"]%string sample_world = (w', 1) /\
    files w' = files sample_world /\ stdout w' = stdout sample_world /\
    opens w' = opens sample_world ++ [("absent.bin"%string, RB)].
Proof.
  apply (run_missing_input "mkboot.py" "absent.bin" "out.bin" sample_world).
  vm_compute; reflexivity.
Defined.

(** X9 (over-long program).  A program of more than 0xFFFFFE00 - 0x30
    bytes is rejected with [struct.error] and exit status 1 before the
    output file is opened: an output file that exists is left as it was,
    and nothing is printed. *)
Theorem run_too_long (script bin_file output_file : string) (w : world) (code : bytes) :
  files w !! bin_file = Some code ->
  0xFFFFFE00 - 0x30 < len code ->
  exists w',
    main [script; bin_file; output_file] w = (w', Raise StructError) /\
    run [script; bin_file; output_file] w = (w', 1) /\
    files w' = files w /\ stdout w' = stdout w /\
    opens w' = opens w ++ [(bin_file, RB)].
Proof.
  intros Hf Hl. unfold run. rewrite main_build, make_boot0_run, Hf.
  rewrite build_Raise by (pose proof (aligned_size_fits code); lia).
  eexists. repeat split.
Qed.

Lemma run_too_long_witness :
  exists w',
    let big := replicate (Z.to_nat 0xFFFFFE00) x00 in
    let w := World {[ "big.bin"%string := big ]} ∅ [] [] in
    main ["mkboot.py"; "big.bin"; "out.bin"]%string w = (w', Raise StructError) /\
    run ["mkboot.py"; "big.bin"; "out.bin"]%string w = (w', 1) /\
    files w' = files w /\ stdout w' = stdout w /\
    opens w' = opens w ++ [("big.bin"%string, RB)].
Proof.
  refine (run_too_long "mkboot.py" "big.bin" "out.bin"
            (World {[ "big.bin"%string := replicate (Z.to_nat 0xFFFFFE00) x00 ]} ∅ [] [])
            (replicate (Z.to_nat 0xFFFFFE00) x00) _ _).
  - apply lookup_singleton_eq.
  - unfold len. rewrite length_replicate, Z2Nat.id; lia.
Defined.

(** X10 (output cannot be opened).  When the input is read and the
    image is built but the output path cannot be opened for writing, the
    run ends with [OSError] on the output path and exit status 1; no file
    changes and the summary is not printed. *)
Theorem run_output_refused
    (script bin_file output_file : string) (w : world) (code : bytes) :
  files w !! bin_file = Some code ->
  len code <= 0xFFFFFE00 - 0x30 ->
  output_file ∈ readonly w ->
  exists w',
    main [script; bin_file; output_file] w = (w', Raise (OSError output_file)) /\
    run [script; bin_file; output_file] w = (w', 1) /\
    files w' = files w /\ stdout w' = stdout w /\
    opens w' = opens w ++ [(bin_file, RB); (output_file, WB)].
Proof.
  intros Hf Hl Hro. unfold run. rewrite main_build, make_boot0_run, Hf.
  destruct (build_Ok code) as (image & c & ->); [by apply aligned_size_fits|].
  rewrite decide_True by done.
  eexists. repeat split. cbn [opens log_open]. by rewrite <- app_assoc.
Qed.

Lemma run_output_refused_witness :
  exists w',
    main ["mkboot.py"; "fw/app.bin"; "notes.txt"]%string sample_world'
      = (w', Raise (OSError "notes.txt")) /\
    run ["mkboot.py"; "fw/app.bin"; "notes.txt"]%string sample_world' = (w', 1) /\
    files w' = files sample_world' /\ stdout w' = stdout sample_world' /\
    opens w' = opens sample_world'
               ++ [("fw/app.bin"%string, RB); ("notes.txt"%string, WB)].
Proof.
  apply (run_output_refused "mkboot.py" "fw/app.bin" "notes.txt" sample_world' sample_code).
  - vm_compute; reflexivity.
  - vm_compute; discriminate.
  - cbn [readonly sample_world']. apply elem_of_singleton. reflexivity.
Defined.



(** ** The printed checksum *)

Module Hex.
Import Py.

Lemma length_string_app (s t : string) :
  String.length (s +:+ t) = (String.length s + String.length t)%nat.
Proof. induction s as [|a s IH]; [done|]. simpl. f_equal. exact IH. Qed.

Lemma length_zeros (n : nat) : String.length (zeros n) = n.
Proof. induction n as [|n IH]; cbn; [done|by rewrite IH]. Qed.

(** A number below [16^k] never takes more than [k] digits. *)
Lemma length_hex_upper_go (fuel : nat) (n : N) (acc : string) (k : nat) :
  (1 <= k)%nat -> (n < 16 ^ N.of_nat k)%N ->
  (String.length (hex_upper_go fuel n acc) <= String.length acc + k)%nat.
Proof.
  revert n acc k. induction fuel as [|fuel IH]; intros n acc k Hk Hn.
  - cbn. lia.
  - cbn [hex_upper_go]. destruct (N.eqb_spec (n / 16) 0) as [Hz|Hz].
    + cbn [String.length]. lia.
    + destruct k as [|[|k]]; [lia| |].
      * exfalso. apply Hz. apply N.div_small. exact Hn.
      * etrans; [apply (IH _ _ (S k))|cbn [String.length]; lia]; [lia|].
        apply N.Div0.div_lt_upper_bound.
        by rewrite (Nat2N.inj_succ (S k)), N.pow_succ_r' in Hn.
Qed.

Lemma length_format_0X (w : nat) (n : Z) :
  (1 <= w)%nat -> 0 <= n < 16 ^ Z.of_nat w ->
  String.length (format_0X w n) = w.
Proof.
  intros Hw Hn. unfold format_0X.
  set (digits := hex_upper_go _ _ _).
  assert (Hd : (String.length digits <= w)%nat).
  { subst digits. etrans; [apply (length_hex_upper_go _ _ _ w Hw)|cbn; lia].
    apply N2Z.inj_lt. rewrite Z2N.id by lia.
    rewrite N2Z.inj_pow, nat_N_Z. apply Hn. }
  rewrite length_string_app, length_zeros. lia.
Qed.

End Hex.

(** X12 (the checksum line).  The checksum a successful build returns
    lies in [0, 2^32), so the summary prints it, zero-padded, in
    exactly eight characters, never more. *)
Theorem checksum_line_width (code out : bytes) (c : Z) :
  build code = Ok (out, c) ->
  0 <= c <= 0xFFFFFFFF /\ String.length (format_0X 8 c) = 8%nat.
Proof.
  intros (_ & _ & Hc & _)%build_eq. split; [exact Hc|].
  apply Hex.length_format_0X; [lia|]. change (16 ^ Z.of_nat 8) with 4294967296. lia.
Qed.

Lemma checksum_line_width_witness :
  build sample_code = Ok (sample_out, sample_checksum) /\
  0 <= sample_checksum <= 0xFFFFFFFF /\
  String.length (format_0X 8 sample_checksum) = 8%nat.
Proof.
  assert (Hb : build sample_code = Ok (sample_out, sample_checksum))
    by (vm_compute; reflexivity).
  split; [exact Hb|]. exact (checksum_line_width sample_code _ _ Hb).
Defined.

(** ** The checksum of a concatenation *)

Module Additive.
Import Py Sys Mkboot Format PyFacts SliceFacts Checksum Sums.

Local Abbreviation total b := (foldr Z.add 0 (le_words b)).

Lemma mul4 (n : nat) : (n mod 4 = 0)%nat -> n = (4 * (n / 4))%nat.
Proof. intros H. pose proof (Nat.div_mod_eq n 4). lia. Qed.

Lemma le_words_app (k : nat) (a b : bytes) :
  length a = (4 * k)%nat -> le_words (a ++ b) = le_words a ++ le_words b.
Proof.
  revert a. induction k as [|k IH]; intros a Hl.
  - by destruct a.
  - destruct a as [|a0 [|a1 [|a2 [|a3 rest]]]]; cbn [length] in Hl; try lia.
    cbn [app le_words]. change (?x :: ?l ++ ?m) with (x :: (l ++ m)).
    f_equal. apply IH. lia.
Qed.

Lemma total_app (a b : bytes) :
  (length a mod 4 = 0)%nat -> total (a ++ b) = total a + total b.
Proof.
  intros Ha. rewrite (le_words_app (length a / 4)) by by apply mul4.
  induction (le_words a) as [|w ws IH]; cbn [app foldr]; lia.
Qed.

Lemma checksum_total (img : bytes) :
  (length img mod 4 = 0)%nat -> checksum img = Ok (total img mod 2^32).
Proof. intros Hm. apply (checksum_word_sum img (length img / 4)). by apply mul4. Qed.

Lemma checksum_Ok_inv (img : bytes) (c : Z) :
  checksum img = Ok c -> (length img mod 4 = 0)%nat /\ c = total img mod 2^32.
Proof.
  intros Hc. destruct (decide (length img mod 4 = 0)%nat) as [Hm|Hm].
  - rewrite checksum_total in Hc by done. by injection Hc as <-.
  - rewrite checksum_partial in Hc by done. discriminate.
Qed.

Lemma length_app_mod4 (a b : bytes) :
  (length a mod 4 = 0)%nat -> (length (a ++ b) mod 4 = length b mod 4)%nat.
Proof.
  intros Ha. rewrite length_app, (mul4 _ Ha), Nat.mul_comm.
  rewrite Nat.add_comm. apply Nat.Div0.mod_add.
Qed.

End Additive.

(** X13 (checksums add).  When two byte strings have checksums, their
    concatenation has the checksum that is the sum of the two modulo
    2^32: the checksum of an image can be computed piece by piece. *)
Theorem checksum_app (a b : bytes) (ca cb : Z) :
  checksum a = Ok ca -> checksum b = Ok cb ->
  checksum (a ++ b) = Ok ((ca + cb) mod 2^32).
Proof.
  intros [Ha ->]%Additive.checksum_Ok_inv [Hb ->]%Additive.checksum_Ok_inv.
  rewrite Additive.checksum_total
    by (rewrite Additive.length_app_mod4; done).
  rewrite Additive.total_app by done. f_equal.
  by rewrite <- Z.add_mod by done.
Qed.

Lemma checksum_app_witness :
  checksum [x01; x02; x03; x04] = Ok 0x04030201 /\
  checksum [xff; xff; xff; xff] = Ok 0xFFFFFFFF /\
  checksum ([x01; x02; x03; x04] ++ [xff; xff; xff; xff]) = Ok 0x04030200.
Proof.
  assert (Ha : checksum [x01; x02; x03; x04] = Ok 0x04030201) by reflexivity.
  assert (Hb : checksum [xff; xff; xff; xff] = Ok 0xFFFFFFFF) by reflexivity.
  split; [exact Ha|]. split; [exact Hb|].
  exact (checksum_app _ _ _ _ Ha Hb).
Defined.

(** X14 (word order is not checked).  Exchanging two aligned 32-bit
    words of a byte string leaves the result of the summing loop
    unchanged: the checksum cannot tell in which order the words
    came. *)
Theorem checksum_word_swap (a w1 b w2 c : bytes) :
  (length a mod 4 = 0)%nat -> length w1 = 4%nat ->
  (length b mod 4 = 0)%nat -> length w2 = 4%nat ->
  checksum (a ++ w1 ++ b ++ w2 ++ c) = checksum (a ++ w2 ++ b ++ w1 ++ c).
Proof.
  intros Ha H1 Hb H2.
  assert (M1 : (length w1 mod 4 = 0)%nat) by (by rewrite H1).
  assert (M2 : (length w2 mod 4 = 0)%nat) by (by rewrite H2).
  assert (Hlen : forall u v : bytes,
            (length u mod 4 = 0)%nat -> (length v mod 4 = 0)%nat ->
            (length (a ++ u ++ b ++ v ++ c) mod 4 = length c mod 4)%nat).
  { intros u v Hu Hv. by rewrite !Additive.length_app_mod4. }
  destruct (decide (length c mod 4 = 0)%nat) as [Hc|Hc].
  - rewrite !Additive.checksum_total by (rewrite Hlen; done).
    rewrite !Additive.total_app by done. do 2 f_equal. lia.
  - rewrite !Sums.checksum_partial by (rewrite Hlen; done). reflexivity.
Qed.

Lemma checksum_word_swap_witness :
  checksum ([] ++ [x01; x02; x03; x04] ++ [] ++ [x05; x06; x07; x08] ++ [])
  = checksum ([] ++ [x05; x06; x07; x08] ++ [] ++ [x01; x02; x03; x04] ++ []).
Proof.
  apply (checksum_word_swap [] [x01; x02; x03; x04] [] [x05; x06; x07; x08] []);
    reflexivity.
Defined.
